(** * Cielo API client: request-to-URL serialization (src/src/lib.rs)

    A shallow embedding of [construct_url_from_req_object] and of the
    request-building part of [submit_cielo_get_request].  The URL buffer
    [_q_url] and the [info!] logger are threaded through a small state
    monad; the HTTP transport is a parameter of [submit_cielo_get_request]. *)

From Stdlib Require Import List Bool Ascii String ZArith NArith Lia.
From Stdlib Require Import Numbers.DecimalString.
Import ListNotations.
Open Scope string_scope.

(** ** Data model *)

(** [usize] as a natural number; [i64] as an integer.  The serializer only
    formats them with [{}], so their width plays no role. *)
Definition usize := N.
Definition i64 := Z.

(** [format!("{}", n)] for unsigned and signed integers. *)
Definition usize_to_string (n : usize) : string :=
  NilZero.string_of_uint (N.to_uint n).
Definition i64_to_string (z : i64) : string :=
  NilZero.string_of_int (Z.to_int z).

Inductive TxType :=
| Bridge | ContractCreation | ContractInteraction | Flashloan | Lending | Lp
| NftLending | NftLiquidation | NftMint | NftSweep | NftTrade | NftTransfer
| Option | Perp | Reward | Staking | SudoPool | Swap | Transfer | Wrap.

(** [TxType::to_get_format] *)
Definition TxType_to_get_format (t : TxType) : string :=
  match t with
  | Bridge => "bridge"
  | ContractCreation => "contract_creation"
  | ContractInteraction => "contract_interaction"
  | Flashloan => "flashloan"
  | Lending => "lending"
  | Lp => "lp"
  | NftLending => "nft_lending"
  | NftLiquidation => "nft_liquidation"
  | NftMint => "nft_mint"
  | NftSweep => "nft_sweep"
  | NftTrade => "nft_trade"
  | NftTransfer => "nft_transfer"
  | Option => "option"
  | Perp => "perp"
  | Reward => "reward"
  | Staking => "staking"
  | SudoPool => "sudo_pool"
  | Swap => "swap"
  | Transfer => "transfer"
  | Wrap => "wrap"
  end.

Inductive Chain :=
| Solana
| Ethereum
| EvmChain (name : string).

(** [Chain::to_get_format] *)
Definition Chain_to_get_format (c : Chain) : string :=
  match c with
  | Solana => "solana"
  | Ethereum => "ethereum"
  | EvmChain chain => chain
  end.

Record CieloRequest := {
  wallet : option string;
  limit : option usize;
  list_ : option usize;   (* the field [list]; renamed, [list] is the list type *)
  chains : option (list Chain);
  types : option (list TxType);
  tokens : option (list string);
  min_usd : option usize;
  new_trades : option bool;
  start_from : option string;
  from_timestamp : option i64;
  to_timestamp : option i64
}.

(** [pub const API_KEY: &str = ""] *)
Definition API_KEY : string := EmptyString.
Definition BASE_URL : string := "https://feed-api.cielo.finance/api/v1/feed?".

(** [Result<T, E>] *)
Inductive result (A E : Type) :=
| Ok (a : A)
| Err (e : E).
Arguments Ok {A E} a.
Arguments Err {A E} e.

(** ** The serializer's state: the [_q_url] buffer and the logger output *)

Record St := mkSt { q_url : string; logs : list string }.

Definition M (A : Type) := St -> A * St.

Definition ret {A} (a : A) : M A := fun s => (a, s).
Definition bind {A B} (m : M A) (k : A -> M B) : M B :=
  fun s => let (a, s') := m s in k a s'.

Notation "x <- m ;; k" := (bind m (fun x => k))
  (at level 61, m at next level, right associativity).
Notation "m ;;; k" := (bind m (fun _ => k))
  (at level 61, right associativity).

(** [let mut _q_url = String::new();] *)
Definition new_url : M unit :=
  fun s => (tt, mkSt EmptyString (logs s)).
(** [_q_url.push_str(..)] *)
Definition push_str (x : string) : M unit :=
  fun s => (tt, mkSt (q_url s ++ x) (logs s)).
(** The line feed and escape characters of the log messages. *)
Definition newline : string := String (ascii_of_nat 10) EmptyString.
Definition esc : string := String (ascii_of_nat 27) EmptyString.

(** The message of [info!("URL CONSTRUCTOR:\n \x1b[35m<label>\x1b[0m {}", _q_url)]. *)
Definition log_record (label url : string) : string :=
  "URL CONSTRUCTOR:" ++ newline ++ " " ++ esc ++ "[35m" ++ label ++ esc ++ "[0m " ++ url.

(** [info!(..)]: the record is added to the logger output. *)
Definition info (label : string) : M unit :=
  fun s => (tt, mkSt (q_url s) (logs s ++ [log_record label (q_url s)])).
Definition get_url : M string := fun s => (q_url s, s).

(** The [for x in xs { if index == 0 { .. } else { .. } index += 1; }]
    loop used for chains, tx types and tokens. *)
Fixpoint push_list_loop {X} (param : string) (fmt : X -> string)
    (index : nat) (xs : list X) : M unit :=
  match xs with
  | [] => ret tt
  | x :: xs' =>
      (if Nat.eqb index 0
       then push_str ("&" ++ param ++ "=" ++ fmt x)
       else push_str ("," ++ fmt x)) ;;;
      push_list_loop param fmt (S index) xs'
  end.

Definition construct_url_from_req_object (request : CieloRequest)
    : M (result string string) :=
  new_url ;;;
  push_str BASE_URL ;;;
  match wallet request with
  | None => ret (Err "Wallet address is required")
  | Some w =>
      push_str ("wallet=" ++ w) ;;; info "Adding wallet address:" ;;;
      match limit request with
      | Some l => push_str ("&limit=" ++ usize_to_string l) ;;; info "Adding tx limit:"
      | None => ret tt end ;;;
      match list_ request with
      | Some l => push_str ("&list=" ++ usize_to_string l) ;;; info "Adding list ID:"
      | None => ret tt end ;;;
      match chains request with
      | Some cs => push_list_loop "chains" Chain_to_get_format 0 cs ;;; info "Adding chains:"
      | None => ret tt end ;;;
      match types request with
      | Some ts => push_list_loop "txTypes" TxType_to_get_format 0 ts ;;; info "Adding tx types:"
      | None => ret tt end ;;;
      match tokens request with
      | Some ts => push_list_loop "tokens" (fun t => t) 0 ts ;;; info "Adding tokens:"
      | None => ret tt end ;;;
      match min_usd request with
      | Some m => push_str ("&minUSD=" ++ usize_to_string m) ;;; info "Adding min USD amount for txs:"
      | None => ret tt end ;;;
      match new_trades request with
      | Some nt =>
          (if nt then push_str "&newTrades=true" else push_str "&newTrades=false") ;;;
          info "Adding new trades filter:"
      | None => ret tt end ;;;
      match start_from request with
      | Some sf => push_str ("&startFrom=" ++ sf) ;;;
                   info "startFrom value for response `paging.next_object_id` to get next page:"
      | None => ret tt end ;;;
      match from_timestamp request with
      | Some f => push_str ("&fromTimestamp=" ++ i64_to_string f) ;;; info "Adding from_timestamp (UTC):"
      | None => ret tt end ;;;
      match to_timestamp request with
      | Some t => push_str ("&toTimestamp=" ++ i64_to_string t) ;;; info "Adding to_timestamp (UTC):"
      | None => ret tt end ;;;
      u <- get_url ;;
      ret (Ok u)
  end.

Definition init_st : St := mkSt EmptyString [].

(** The serializer run from a fresh logger. *)
Definition serialize (r : CieloRequest) : result string string :=
  fst (construct_url_from_req_object r init_st).

(** ** [submit_cielo_get_request]

    The transport ([client.get(url).header(..).send()] followed by
    [response.text()]) is the parameter [send]; each call returns the
    request outcome together with the URLs handed to the transport. *)

Inductive Outcome :=
| Panicked (msg : string)
| Returned (r : result string string).

Definition unwrap_none_msg : string :=
  "called `Option::unwrap()` on a `None` value".
Definition expect_msg : string :=
  "Error constructing GET request query values (URL)".

(** [<str as Debug>::fmt], which [Box<dyn Error>] built from a [&str]
    forwards to: the text between double quotes, with [escape_debug] applied
    to each character: tab, carriage return, line feed, backslash, double
    quote and NUL become backslash escapes, the other ASCII control characters
    [\u{..}] in lower-case hex, and a single quote is kept.  Characters are ASCII here, as are all messages of the crate. *)
Definition dquote : ascii := ascii_of_nat 34.
Definition backslash : ascii := ascii_of_nat 92.

Definition hex_digit (n : nat) : ascii :=
  if Nat.ltb n 10 then ascii_of_nat (48 + n) else ascii_of_nat (87 + n).

Definition escape_debug_char (c : ascii) : string :=
  let n := nat_of_ascii c in
  if Nat.eqb n 9 then String backslash "t"
  else if Nat.eqb n 13 then String backslash "r"
  else if Nat.eqb n 10 then String backslash "n"
  else if Nat.eqb n 92 then String backslash (String backslash EmptyString)
  else if Nat.eqb n 34 then String backslash (String dquote EmptyString)
  else if Nat.eqb n 0 then String backslash "0"
  else if Nat.ltb n 32 || Nat.eqb n 127 then
    String backslash ("u{" ++ (if Nat.ltb n 16 then EmptyString
                               else String (hex_digit (n / 16)) EmptyString)
                     ++ String (hex_digit (n mod 16)) "}")
  else String c EmptyString.

Fixpoint escape_debug (s : string) : string :=
  match s with
  | EmptyString => EmptyString
  | String c s' => escape_debug_char c ++ escape_debug s'
  end.

Definition debug_str (e : string) : string :=
  String dquote (escape_debug e ++ String dquote EmptyString).

(** The loops building [chains_string] and [tx_type_string], whose results
    are never used afterwards. *)
Fixpoint submit_join_loop {X} (sep : string) (fmt : X -> string)
    (len index : nat) (acc : string) (xs : list X) : string :=
  match xs with
  | [] => acc
  | x :: xs' =>
      submit_join_loop sep fmt len (S index)
        (if negb (Nat.eqb index len) then acc ++ fmt x ++ sep else acc ++ fmt x)
        xs'
  end.

Section Submit.
Variable send : string -> list (string * string) -> result string string.

Definition submit_cielo_get_request (req : CieloRequest)
    : Outcome * list string :=
  match chains req with
  | None => (Panicked unwrap_none_msg, [])
  | Some cs =>
      let _chains_string :=
        submit_join_loop "," Chain_to_get_format (List.length cs) 0 EmptyString cs in
      match types req with
      | None => (Panicked unwrap_none_msg, [])
      | Some ts =>
          let _tx_type_string :=
            submit_join_loop "&" TxType_to_get_format (List.length ts) 0 EmptyString ts in
          (* [Result::expect] panics with [msg: {:?}] of the error *)
          match serialize req with
          | Err e => (Panicked (expect_msg ++ ": " ++ debug_str e), [])
          | Ok q_url =>
              (Returned (send q_url [("Accept", "application/json"); ("X-API-KEY", API_KEY)]),
               [q_url])
          end
      end
  end.
End Submit.

(** ** The URL as the spec describes it, segment by segment *)

Fixpoint commas {X} (fmt : X -> string) (xs : list X) : string :=
  match xs with
  | [] => EmptyString
  | x :: xs' => "," ++ fmt x ++ commas fmt xs'
  end.

(** A list parameter: [&param=] and the first element, then [,] and each
    further element; nothing for an absent or empty list. *)
Definition list_seg {X} (param : string) (fmt : X -> string) (o : option (list X)) : string :=
  match o with
  | Some (x :: xs) => "&" ++ param ++ "=" ++ fmt x ++ commas fmt xs
  | _ => EmptyString
  end.

(** A scalar parameter: [&param=value], nothing when absent. *)
Definition opt_seg {X} (param : string) (fmt : X -> string) (o : option X) : string :=
  match o with
  | Some v => "&" ++ param ++ "=" ++ fmt v
  | None => EmptyString
  end.

Definition bool_to_string (b : bool) : string := if b then "true" else "false".

(** Base, wallet, then the fields in the order wallet, limit, list, chains,
    txTypes, tokens, minUSD, newTrades, startFrom, fromTimestamp, toTimestamp. *)
Definition url_spec (w : string) (r : CieloRequest) : string :=
  BASE_URL ++ "wallet=" ++ w
  ++ opt_seg "limit" usize_to_string (limit r)
  ++ opt_seg "list" usize_to_string (list_ r)
  ++ list_seg "chains" Chain_to_get_format (chains r)
  ++ list_seg "txTypes" TxType_to_get_format (types r)
  ++ list_seg "tokens" (fun t => t) (tokens r)
  ++ opt_seg "minUSD" usize_to_string (min_usd r)
  ++ opt_seg "newTrades" bool_to_string (new_trades r)
  ++ opt_seg "startFrom" (fun t => t) (start_from r)
  ++ opt_seg "fromTimestamp" i64_to_string (from_timestamp r)
  ++ opt_seg "toTimestamp" i64_to_string (to_timestamp r).

(** [s] occurs in [t]. *)
Definition contains (s t : string) : Prop := exists p q, t = p ++ s ++ q.

(** ** Changing one field of a request *)

Definition set_wallet (r : CieloRequest) (o : option string) : CieloRequest :=
  {| wallet := o; limit := limit r; list_ := list_ r; chains := chains r; types := types r; tokens := tokens r; min_usd := min_usd r; new_trades := new_trades r; start_from := start_from r; from_timestamp := from_timestamp r; to_timestamp := to_timestamp r |}.
Definition set_limit (r : CieloRequest) (o : option usize) : CieloRequest :=
  {| wallet := wallet r; limit := o; list_ := list_ r; chains := chains r; types := types r; tokens := tokens r; min_usd := min_usd r; new_trades := new_trades r; start_from := start_from r; from_timestamp := from_timestamp r; to_timestamp := to_timestamp r |}.
Definition set_list (r : CieloRequest) (o : option usize) : CieloRequest :=
  {| wallet := wallet r; limit := limit r; list_ := o; chains := chains r; types := types r; tokens := tokens r; min_usd := min_usd r; new_trades := new_trades r; start_from := start_from r; from_timestamp := from_timestamp r; to_timestamp := to_timestamp r |}.
Definition set_chains (r : CieloRequest) (o : option (list Chain)) : CieloRequest :=
  {| wallet := wallet r; limit := limit r; list_ := list_ r; chains := o; types := types r; tokens := tokens r; min_usd := min_usd r; new_trades := new_trades r; start_from := start_from r; from_timestamp := from_timestamp r; to_timestamp := to_timestamp r |}.
Definition set_types (r : CieloRequest) (o : option (list TxType)) : CieloRequest :=
  {| wallet := wallet r; limit := limit r; list_ := list_ r; chains := chains r; types := o; tokens := tokens r; min_usd := min_usd r; new_trades := new_trades r; start_from := start_from r; from_timestamp := from_timestamp r; to_timestamp := to_timestamp r |}.
Definition set_tokens (r : CieloRequest) (o : option (list string)) : CieloRequest :=
  {| wallet := wallet r; limit := limit r; list_ := list_ r; chains := chains r; types := types r; tokens := o; min_usd := min_usd r; new_trades := new_trades r; start_from := start_from r; from_timestamp := from_timestamp r; to_timestamp := to_timestamp r |}.
Definition set_min_usd (r : CieloRequest) (o : option usize) : CieloRequest :=
  {| wallet := wallet r; limit := limit r; list_ := list_ r; chains := chains r; types := types r; tokens := tokens r; min_usd := o; new_trades := new_trades r; start_from := start_from r; from_timestamp := from_timestamp r; to_timestamp := to_timestamp r |}.
Definition set_new_trades (r : CieloRequest) (o : option bool) : CieloRequest :=
  {| wallet := wallet r; limit := limit r; list_ := list_ r; chains := chains r; types := types r; tokens := tokens r; min_usd := min_usd r; new_trades := o; start_from := start_from r; from_timestamp := from_timestamp r; to_timestamp := to_timestamp r |}.
Definition set_start_from (r : CieloRequest) (o : option string) : CieloRequest :=
  {| wallet := wallet r; limit := limit r; list_ := list_ r; chains := chains r; types := types r; tokens := tokens r; min_usd := min_usd r; new_trades := new_trades r; start_from := o; from_timestamp := from_timestamp r; to_timestamp := to_timestamp r |}.
Definition set_from_timestamp (r : CieloRequest) (o : option i64) : CieloRequest :=
  {| wallet := wallet r; limit := limit r; list_ := list_ r; chains := chains r; types := types r; tokens := tokens r; min_usd := min_usd r; new_trades := new_trades r; start_from := start_from r; from_timestamp := o; to_timestamp := to_timestamp r |}.
Definition set_to_timestamp (r : CieloRequest) (o : option i64) : CieloRequest :=
  {| wallet := wallet r; limit := limit r; list_ := list_ r; chains := chains r; types := types r; tokens := tokens r; min_usd := min_usd r; new_trades := new_trades r; start_from := start_from r; from_timestamp := from_timestamp r; to_timestamp := o |}.

(** ** Enumerating [TxType] *)

Definition all_TxTypes : list TxType :=
  [Bridge; ContractCreation; ContractInteraction; Flashloan; Lending; Lp;
   NftLending; NftLiquidation; NftMint; NftSweep; NftTrade; NftTransfer;
   Option; Perp; Reward; Staking; SudoPool; Swap; Transfer; Wrap].

Definition TxType_tokens : list string :=
  ["bridge"; "contract_creation"; "contract_interaction"; "flashloan"; "lending";
   "lp"; "nft_lending"; "nft_liquidation"; "nft_mint"; "nft_sweep"; "nft_trade";
   "nft_transfer"; "option"; "perp"; "reward"; "staking"; "sudo_pool"; "swap";
   "transfer"; "wrap"].

Definition TxType_eq_dec (a b : TxType) : {a = b} + {a <> b}.
Proof. decide equality. Defined.

(** ** Where an ampersand can occur in a URL *)

Fixpoint no_amp (s : string) : bool :=
  match s with
  | EmptyString => true
  | String c s' => negb (Ascii.eqb c "&") && no_amp s'
  end.

(** Every [&] is followed by a character other than [n]. *)
Fixpoint amp_ok (s : string) : bool :=
  match s with
  | EmptyString => true
  | String c s' =>
      (if Ascii.eqb c "&"
       then match s' with
            | EmptyString => false
            | String d _ => negb (Ascii.eqb d "n")
            end
       else true) && amp_ok s'
  end.

(** [s] is empty or starts with [&] or [,]: what follows a free-form string
    in the URL. *)
Definition sep_start (s : string) : bool :=
  match s with
  | EmptyString => true
  | String c _ => Ascii.eqb c "&" || Ascii.eqb c ","
  end.

(** [s] holds neither [&] nor [,]. *)
Fixpoint no_sep (s : string) : bool :=
  match s with
  | EmptyString => true
  | String c s' => negb (Ascii.eqb c "&" || Ascii.eqb c ",") && no_sep s'
  end.

(** One of the free-form strings of a request (wallet, EvmChain slugs,
    tokens, start_from) contains [pat]. *)
Definition free_contains (pat : string) (r : CieloRequest) : Prop :=
  (exists w, wallet r = Some w /\ contains pat w)
  \/ (exists cs c, chains r = Some cs /\ In c cs /\ contains pat (Chain_to_get_format c))
  \/ (exists ts t, tokens r = Some ts /\ In t ts /\ contains pat t)
  \/ (exists sf, start_from r = Some sf /\ contains pat sf).

(** ** Buffer effects of the serializer's steps *)

(** [m] leaves its result [tt] and appends [d] to the URL buffer. *)
Definition appends (m : M unit) (d : string) : Prop :=
  forall s, fst (m s) = tt /\ q_url (snd (m s)) = q_url s ++ d.

(** [m] returns [Ok] of the buffer extended by [u]. *)
Definition yields (m : M (result string string)) (u : string) : Prop :=
  forall s, fst (m s) = Ok (q_url s ++ u).

Definition ex_req : CieloRequest := {|
  wallet := Some "0xABC"; limit := Some 10%N; list_ := None;
  chains := Some [Ethereum]; types := Some [Swap]; tokens := None;
  min_usd := Some 100%N; new_trades := None; start_from := None;
  from_timestamp := None; to_timestamp := None |}.

Definition ex_chains_req : CieloRequest :=
  set_chains ex_req (Some [Solana; Ethereum; EvmChain "polygon"]).

(** A request whose wallet string carries a [newTrades] assignment. *)
Definition ex_injected_req : CieloRequest :=
  set_wallet ex_req (Some "0x&newTrades=true").

(** ** Callers: the entry point (src/src/main.rs) and the tests of lib.rs *)


Definition cielo_headers : list (string * string) :=
  [("Accept", "application/json"); ("X-API-KEY", API_KEY)].





(** The requests of the tests [it_gets_transactions] and [it_gets_sol_txs]. *)
Definition test_eth_request : CieloRequest := {|
  wallet := Some "0x0f9d76acdbc4417b026f876be1e2042e45f3bcd2";
  limit := Some 10%N; list_ := None; chains := Some [Ethereum];
  types := Some [Swap]; tokens := None; min_usd := Some 100%N;
  new_trades := None; start_from := None; from_timestamp := None;
  to_timestamp := None |}.

Definition test_sol_request : CieloRequest := {|
  wallet := Some "GTdu7yv9DefWrEoWZnRc744qMEo5DFgrrdar7QdivEwf";
  limit := Some 10%N; list_ := None; chains := Some [Solana];
  types := Some [Swap; Transfer]; tokens := None; min_usd := Some 100%N;
  new_trades := None; start_from := None; from_timestamp := None;
  to_timestamp := None |}.

(** A test body [submit_cielo_get_request(request).await.expect(..)]
    passes when the call returns [Ok]; a panic or an [Err] fails it. *)
Definition test_passes (send : string -> list (string * string) -> result string string)
    (req : CieloRequest) : bool :=
  match fst (submit_cielo_get_request send req) with
  | Returned (Ok _) => true
  | _ => false
  end.

(** Counting the optional fields that are present. *)
Definition opt_count {X} (o : option X) : nat :=
  match o with Some _ => 1 | None => 0 end.

Definition present_fields (r : CieloRequest) : nat :=
  opt_count (limit r) + opt_count (list_ r) + opt_count (chains r)
  + opt_count (types r) + opt_count (tokens r) + opt_count (min_usd r)
  + opt_count (new_trades r) + opt_count (start_from r)
  + opt_count (from_timestamp r) + opt_count (to_timestamp r).

(** ** Predicates of the further proofs *)

Definition result_is_ok {A E} (x : result A E) : bool :=
  match x with Ok _ => true | Err _ => false end.

(** [m] adds [n] records after the existing ones. *)
Definition log_step {A} (m : M A) (n : nat) : Prop :=
  forall s, exists L, logs (snd (m s)) = (logs s ++ L)%list /\ List.length L = n.

(** The last record shows the URL built so far. *)
Definition last_record_url (s : St) : Prop :=
  exists pre label, logs s = (pre ++ [log_record label (q_url s)])%list.

(** [m] keeps [last_record_url]. *)
Definition keeps_last (m : M unit) : Prop :=
  forall s, last_record_url s -> last_record_url (snd (m s)).

(** The rest of the serializer, run from a state whose last record shows
    the buffer, ends with a last record that shows the returned URL. *)
Definition ends_logged (k : M (result string string)) : Prop :=
  forall s, last_record_url s ->
  match fst (k s) with
  | Ok u => exists pre label, logs (snd (k s)) = (pre ++ [log_record label u])%list
  | Err _ => True
  end.

Example ex_req_url :
  serialize ex_req = Ok "https://feed-api.cielo.finance/api/v1/feed?wallet=0xABC&limit=10&chains=ethereum&txTypes=swap&minUSD=100".
Proof. vm_compute. reflexivity. Qed.

(** ** Proof infrastructure *)

Lemma append_assoc_str (a b c : string) : (a ++ b) ++ c = a ++ (b ++ c).
Proof. induction a as [|x a IH]; simpl; [reflexivity | now rewrite IH]. Qed.

Lemma append_nil_r_str (a : string) : a ++ EmptyString = a.
Proof. induction a as [|x a IH]; simpl; [reflexivity | now rewrite IH]. Qed.

Lemma appends_ret : appends (ret tt) EmptyString.
Proof. intro s. simpl. now rewrite append_nil_r_str. Qed.

Lemma appends_push (x : string) : appends (push_str x) x.
Proof. intro s. now simpl. Qed.

Lemma appends_info (l : string) : appends (info l) EmptyString.
Proof. intro s. simpl. now rewrite append_nil_r_str. Qed.

Lemma appends_seq m1 m2 d1 d2 :
  appends m1 d1 -> appends m2 d2 -> appends (m1 ;;; m2) (d1 ++ d2).
Proof.
  intros H1 H2 s. unfold bind.
  destruct (H1 s) as [E1 Q1]. destruct (m1 s) as [[] s1]. simpl in *.
  destruct (H2 s1) as [E2 Q2]. split; [assumption|].
  rewrite Q2, Q1. apply append_assoc_str.
Qed.

Lemma appends_push_info (x l : string) : appends (push_str x ;;; info l) x.
Proof.
  rewrite <- (append_nil_r_str x) at 2.
  apply appends_seq; [apply appends_push | apply appends_info].
Qed.

Lemma yields_seq m k d u :
  appends m d -> yields k u -> yields (m ;;; k) (d ++ u).
Proof.
  intros H1 H2 s. unfold bind.
  destruct (H1 s) as [E1 Q1]. destruct (m s) as [[] s1]. simpl in *.
  rewrite H2, Q1, append_assoc_str. reflexivity.
Qed.

Lemma yields_get : yields (u <- get_url ;; ret (Ok u)) EmptyString.
Proof. intro s. simpl. now rewrite append_nil_r_str. Qed.

Lemma loop_rest {X} (p : string) (f : X -> string) (xs : list X) :
  forall i, appends (push_list_loop p f (S i) xs) (commas f xs).
Proof.
  induction xs as [|x xs IH]; intro i.
  - exact appends_ret.
  - exact (appends_seq _ _ _ _ (appends_push ("," ++ f x)) (IH (S i))).
Qed.

Lemma appends_list_field {X} (p l : string) (f : X -> string) (o : option (list X)) :
  appends (match o with
           | Some xs => push_list_loop p f 0 xs ;;; info l
           | None => ret tt end) (list_seg p f o).
Proof.
  destruct o as [[|x xs]|].
  - exact (appends_seq _ _ _ _ appends_ret (appends_info l)).
  - unfold list_seg. rewrite <- (append_nil_r_str (_ ++ _ ++ _ ++ _ ++ _)).
    apply appends_seq; [|apply appends_info].
    replace ("&" ++ p ++ "=" ++ f x ++ commas f xs)
      with (("&" ++ p ++ "=" ++ f x) ++ commas f xs) by now rewrite !append_assoc_str.
    exact (appends_seq _ _ _ _ (appends_push ("&" ++ p ++ "=" ++ f x)) (loop_rest p f xs 0)).
  - exact appends_ret.
Qed.

Lemma yields_conv m u u' : yields m u -> u = u' -> yields m u'.
Proof. intros H <-. exact H. Qed.

Lemma yields_new_url k u s : yields k u -> fst ((new_url ;;; k) s) = Ok u.
Proof. intro H. unfold bind, new_url. rewrite H. reflexivity. Qed.

Lemma appends_opt_field {X} (p l : string) (f : X -> string) (o : option X) :
  appends (match o with
           | Some v => push_str ("&" ++ p ++ "=" ++ f v) ;;; info l
           | None => ret tt end) (opt_seg p f o).
Proof. destruct o; [apply appends_push_info | apply appends_ret]. Qed.

(** The whole serializer, field by field: with a wallet, the result is the
    spec's URL, whatever the logger state. *)
Lemma construct_url_ok (r : CieloRequest) (w : string) (s : St) :
  wallet r = Some w ->
  fst (construct_url_from_req_object r s) = Ok (url_spec w r).
Proof.
  intro Hw. unfold construct_url_from_req_object. rewrite Hw.
  apply yields_new_url.
  eapply yields_conv.
  - eapply (yields_seq _ _ BASE_URL); [apply appends_push|].
    eapply (yields_seq _ _ ("wallet=" ++ w)); [apply appends_push|].
    eapply (yields_seq _ _ EmptyString); [apply appends_info|].
    eapply (yields_seq _ _ (opt_seg "limit" usize_to_string (limit r)));
      [apply (appends_opt_field "limit") |].
    eapply (yields_seq _ _ (opt_seg "list" usize_to_string (list_ r)));
      [apply (appends_opt_field "list") |].
    eapply (yields_seq _ _ (list_seg "chains" Chain_to_get_format (chains r)));
      [apply appends_list_field |].
    eapply (yields_seq _ _ (list_seg "txTypes" TxType_to_get_format (types r)));
      [apply appends_list_field |].
    eapply (yields_seq _ _ (list_seg "tokens" (fun t => t) (tokens r)));
      [apply appends_list_field |].
    eapply (yields_seq _ _ (opt_seg "minUSD" usize_to_string (min_usd r)));
      [apply (appends_opt_field "minUSD") |].
    eapply (yields_seq _ _ (opt_seg "newTrades" bool_to_string (new_trades r)));
      [destruct (new_trades r) as [[]|];
       [apply appends_push_info | apply appends_push_info | apply appends_ret] |].
    eapply (yields_seq _ _ (opt_seg "startFrom" (fun t => t) (start_from r)));
      [apply (appends_opt_field "startFrom") |].
    eapply (yields_seq _ _ (opt_seg "fromTimestamp" i64_to_string (from_timestamp r)));
      [apply (appends_opt_field "fromTimestamp") |].
    eapply (yields_seq _ _ (opt_seg "toTimestamp" i64_to_string (to_timestamp r)));
      [apply (appends_opt_field "toTimestamp") |].
    apply yields_get.
  - unfold url_spec. rewrite append_nil_r_str. simpl (EmptyString ++ _).
    rewrite !append_assoc_str. reflexivity.
Qed.

Lemma construct_url_no_wallet (r : CieloRequest) (s : St) :
  wallet r = None ->
  fst (construct_url_from_req_object r s) = Err "Wallet address is required".
Proof. intro Hw. unfold construct_url_from_req_object. rewrite Hw. reflexivity. Qed.

Lemma list_seg_cons {X} (p : string) (f : X -> string) (x : X) (xs : list X) :
  list_seg p f (Some (x :: xs)) = "&" ++ p ++ "=" ++ f x ++ commas f xs.
Proof. reflexivity. Qed.

(** ** Claims *)

(** C1: without a wallet the serializer fails with the error
    "Wallet address is required" whatever the other fields are, and
    [submit_cielo_get_request] panics before handing any URL to the
    transport. *)
Theorem C1_missing_wallet_fails (r : CieloRequest) :
  wallet r = None ->
  serialize r = Err "Wallet address is required"
  /\ (forall s, fst (construct_url_from_req_object r s) = Err "Wallet address is required")
  /\ (forall send, exists msg, submit_cielo_get_request send r = (Panicked msg, [])).
Proof.
  intro Hw.
  assert (Hs : forall s, fst (construct_url_from_req_object r s) = Err "Wallet address is required")
    by (intro s; now apply construct_url_no_wallet).
  split; [apply Hs|]. split; [exact Hs|].
  intro send. unfold submit_cielo_get_request.
  destruct (chains r); [|eauto].
  destruct (types r); [|eauto].
  unfold serialize. rewrite Hs. eauto.
Qed.

Lemma C1_missing_wallet_fails_witness :
  wallet (set_wallet ex_req None) = None
  /\ serialize (set_wallet ex_req None) = Err "Wallet address is required"
  /\ (forall s, fst (construct_url_from_req_object (set_wallet ex_req None) s)
               = Err "Wallet address is required")
  /\ (forall send, exists msg,
        submit_cielo_get_request send (set_wallet ex_req None) = (Panicked msg, [])).
Proof. split; [reflexivity | apply C1_missing_wallet_fails; reflexivity]. Defined.

(** C2: with a wallet and every optional field absent, the URL is exactly
    the base endpoint followed by [wallet=] and the address. *)
Theorem C2_wallet_only_url (w : string) :
  serialize {| wallet := Some w; limit := None; list_ := None; chains := None;
               types := None; tokens := None; min_usd := None; new_trades := None;
               start_from := None; from_timestamp := None; to_timestamp := None |}
  = Ok (BASE_URL ++ "wallet=" ++ w).
Proof.
  unfold serialize. rewrite (construct_url_ok _ w); [|reflexivity].
  unfold url_spec; cbn [limit list_ chains types tokens min_usd new_trades
                        start_from from_timestamp to_timestamp opt_seg list_seg].
  now rewrite !append_nil_r_str.
Qed.

(** C3: an accepted request serializes to the base, [wallet=], then the
    present fields in the order limit, list, chains, txTypes, tokens,
    minUSD, newTrades, startFrom, fromTimestamp, toTimestamp (absent ones
    contribute nothing); the spec's example request gives the spec's URL. *)
Theorem C3_field_order (r : CieloRequest) (w : string) :
  wallet r = Some w ->
  serialize r = Ok (BASE_URL ++ "wallet=" ++ w
    ++ opt_seg "limit" usize_to_string (limit r)
    ++ opt_seg "list" usize_to_string (list_ r)
    ++ list_seg "chains" Chain_to_get_format (chains r)
    ++ list_seg "txTypes" TxType_to_get_format (types r)
    ++ list_seg "tokens" (fun t => t) (tokens r)
    ++ opt_seg "minUSD" usize_to_string (min_usd r)
    ++ opt_seg "newTrades" bool_to_string (new_trades r)
    ++ opt_seg "startFrom" (fun t => t) (start_from r)
    ++ opt_seg "fromTimestamp" i64_to_string (from_timestamp r)
    ++ opt_seg "toTimestamp" i64_to_string (to_timestamp r))
  /\ serialize ex_req =
     Ok "https://feed-api.cielo.finance/api/v1/feed?wallet=0xABC&limit=10&chains=ethereum&txTypes=swap&minUSD=100".
Proof.
  intro Hw. split.
  - unfold serialize. now rewrite (construct_url_ok _ w).
  - vm_compute. reflexivity.
Qed.

Lemma C3_field_order_witness :
  wallet ex_req = Some "0xABC" /\
  serialize ex_req = Ok (BASE_URL ++ "wallet=" ++ "0xABC"
    ++ opt_seg "limit" usize_to_string (limit ex_req)
    ++ opt_seg "list" usize_to_string (list_ ex_req)
    ++ list_seg "chains" Chain_to_get_format (chains ex_req)
    ++ list_seg "txTypes" TxType_to_get_format (types ex_req)
    ++ list_seg "tokens" (fun t => t) (tokens ex_req)
    ++ opt_seg "minUSD" usize_to_string (min_usd ex_req)
    ++ opt_seg "newTrades" bool_to_string (new_trades ex_req)
    ++ opt_seg "startFrom" (fun t => t) (start_from ex_req)
    ++ opt_seg "fromTimestamp" i64_to_string (from_timestamp ex_req)
    ++ opt_seg "toTimestamp" i64_to_string (to_timestamp ex_req))
  /\ serialize ex_req =
     Ok "https://feed-api.cielo.finance/api/v1/feed?wallet=0xABC&limit=10&chains=ethereum&txTypes=swap&minUSD=100".
Proof. split; [reflexivity | apply C3_field_order; reflexivity]. Defined.

Ltac list_case w Hw :=
  rewrite (construct_url_ok _ w) by exact Hw; unfold url_spec;
  cbn [wallet limit list_ chains types tokens min_usd new_trades start_from
       from_timestamp to_timestamp set_chains set_types set_tokens];
  rewrite ?list_seg_cons, !append_assoc_str; reflexivity.

(** C4: a present non-empty list field contributes exactly one segment,
    [&chains=], [&txTypes=] or [&tokens=] with the first element, then [,]
    and each further element in order, with no trailing separator: the URLs
    with the field absent and present differ by that segment alone.  Chains
    [Solana; Ethereum; EvmChain "polygon"] give [&chains=solana,ethereum,polygon]. *)
Theorem C4_list_fields (r : CieloRequest) (w : string) :
  wallet r = Some w ->
  (exists pre suf, serialize (set_chains r None) = Ok (pre ++ suf)
     /\ (forall c cs, serialize (set_chains r (Some (c :: cs))) =
          Ok (pre ++ "&chains=" ++ Chain_to_get_format c ++ commas Chain_to_get_format cs ++ suf))
     /\ serialize (set_chains r (Some [Solana; Ethereum; EvmChain "polygon"])) =
          Ok (pre ++ "&chains=solana,ethereum,polygon" ++ suf))
  /\ (exists pre suf, serialize (set_types r None) = Ok (pre ++ suf)
     /\ forall t ts, serialize (set_types r (Some (t :: ts))) =
          Ok (pre ++ "&txTypes=" ++ TxType_to_get_format t ++ commas TxType_to_get_format ts ++ suf))
  /\ (exists pre suf, serialize (set_tokens r None) = Ok (pre ++ suf)
     /\ forall t ts, serialize (set_tokens r (Some (t :: ts))) =
          Ok (pre ++ "&tokens=" ++ t ++ commas (fun x => x) ts ++ suf)).
Proof.
  intro Hw. unfold serialize. split; [|split].
  - eexists (BASE_URL ++ "wallet=" ++ w ++ opt_seg "limit" usize_to_string (limit r)
      ++ opt_seg "list" usize_to_string (list_ r)), _.
    split; [|split; [intros c cs|]]; list_case w Hw.
  - eexists (BASE_URL ++ "wallet=" ++ w ++ opt_seg "limit" usize_to_string (limit r)
      ++ opt_seg "list" usize_to_string (list_ r)
      ++ list_seg "chains" Chain_to_get_format (chains r)), _.
    split; [|intros t ts]; list_case w Hw.
  - eexists (BASE_URL ++ "wallet=" ++ w ++ opt_seg "limit" usize_to_string (limit r)
      ++ opt_seg "list" usize_to_string (list_ r)
      ++ list_seg "chains" Chain_to_get_format (chains r)
      ++ list_seg "txTypes" TxType_to_get_format (types r)), _.
    split; [|intros t ts]; list_case w Hw.
Qed.

Lemma C4_list_fields_witness :
  wallet ex_req = Some "0xABC" /\
  (exists pre suf, serialize (set_chains ex_req None) = Ok (pre ++ suf)
     /\ (forall c cs, serialize (set_chains ex_req (Some (c :: cs))) =
          Ok (pre ++ "&chains=" ++ Chain_to_get_format c ++ commas Chain_to_get_format cs ++ suf))
     /\ serialize (set_chains ex_req (Some [Solana; Ethereum; EvmChain "polygon"])) =
          Ok (pre ++ "&chains=solana,ethereum,polygon" ++ suf))
  /\ (exists pre suf, serialize (set_types ex_req None) = Ok (pre ++ suf)
     /\ forall t ts, serialize (set_types ex_req (Some (t :: ts))) =
          Ok (pre ++ "&txTypes=" ++ TxType_to_get_format t ++ commas TxType_to_get_format ts ++ suf))
  /\ (exists pre suf, serialize (set_tokens ex_req None) = Ok (pre ++ suf)
     /\ forall t ts, serialize (set_tokens ex_req (Some (t :: ts))) =
          Ok (pre ++ "&tokens=" ++ t ++ commas (fun x => x) ts ++ suf)).
Proof. split; [reflexivity | apply (C4_list_fields ex_req "0xABC"); reflexivity]. Defined.

Ltac scalar_case w Hw pre :=
  eexists pre, _; split; [|intro v];
  rewrite (construct_url_ok _ w) by exact Hw;
  unfold url_spec; rewrite !append_assoc_str; reflexivity.

(** C5: each present scalar field adds exactly one [&name=value] segment
    with the names limit, list, minUSD, startFrom, fromTimestamp,
    toTimestamp, and an absent one adds nothing: the URLs with the field
    absent and present differ by that segment alone. *)
Theorem C5_scalar_fields (r : CieloRequest) (w : string) :
  wallet r = Some w ->
  (exists pre suf, serialize (set_limit r None) = Ok (pre ++ suf) /\
     forall v, serialize (set_limit r (Some v)) = Ok (pre ++ "&limit=" ++ usize_to_string v ++ suf))
  /\ (exists pre suf, serialize (set_list r None) = Ok (pre ++ suf) /\
     forall v, serialize (set_list r (Some v)) = Ok (pre ++ "&list=" ++ usize_to_string v ++ suf))
  /\ (exists pre suf, serialize (set_min_usd r None) = Ok (pre ++ suf) /\
     forall v, serialize (set_min_usd r (Some v)) = Ok (pre ++ "&minUSD=" ++ usize_to_string v ++ suf))
  /\ (exists pre suf, serialize (set_start_from r None) = Ok (pre ++ suf) /\
     forall v, serialize (set_start_from r (Some v)) = Ok (pre ++ "&startFrom=" ++ v ++ suf))
  /\ (exists pre suf, serialize (set_from_timestamp r None) = Ok (pre ++ suf) /\
     forall v, serialize (set_from_timestamp r (Some v)) =
               Ok (pre ++ "&fromTimestamp=" ++ i64_to_string v ++ suf))
  /\ (exists pre suf, serialize (set_to_timestamp r None) = Ok (pre ++ suf) /\
     forall v, serialize (set_to_timestamp r (Some v)) =
               Ok (pre ++ "&toTimestamp=" ++ i64_to_string v ++ suf)).
Proof.
  intro Hw. unfold serialize.
  split; [|split; [|split; [|split; [|split]]]].
  - scalar_case w Hw (BASE_URL ++ "wallet=" ++ w).
  - scalar_case w Hw (BASE_URL ++ "wallet=" ++ w ++ opt_seg "limit" usize_to_string (limit r)).
  - scalar_case w Hw (BASE_URL ++ "wallet=" ++ w ++ opt_seg "limit" usize_to_string (limit r)
      ++ opt_seg "list" usize_to_string (list_ r)
      ++ list_seg "chains" Chain_to_get_format (chains r)
      ++ list_seg "txTypes" TxType_to_get_format (types r)
      ++ list_seg "tokens" (fun t => t) (tokens r)).
  - scalar_case w Hw (BASE_URL ++ "wallet=" ++ w ++ opt_seg "limit" usize_to_string (limit r)
      ++ opt_seg "list" usize_to_string (list_ r)
      ++ list_seg "chains" Chain_to_get_format (chains r)
      ++ list_seg "txTypes" TxType_to_get_format (types r)
      ++ list_seg "tokens" (fun t => t) (tokens r)
      ++ opt_seg "minUSD" usize_to_string (min_usd r)
      ++ opt_seg "newTrades" bool_to_string (new_trades r)).
  - scalar_case w Hw (BASE_URL ++ "wallet=" ++ w ++ opt_seg "limit" usize_to_string (limit r)
      ++ opt_seg "list" usize_to_string (list_ r)
      ++ list_seg "chains" Chain_to_get_format (chains r)
      ++ list_seg "txTypes" TxType_to_get_format (types r)
      ++ list_seg "tokens" (fun t => t) (tokens r)
      ++ opt_seg "minUSD" usize_to_string (min_usd r)
      ++ opt_seg "newTrades" bool_to_string (new_trades r)
      ++ opt_seg "startFrom" (fun t => t) (start_from r)).
  - eexists (BASE_URL ++ "wallet=" ++ w ++ opt_seg "limit" usize_to_string (limit r)
      ++ opt_seg "list" usize_to_string (list_ r)
      ++ list_seg "chains" Chain_to_get_format (chains r)
      ++ list_seg "txTypes" TxType_to_get_format (types r)
      ++ list_seg "tokens" (fun t => t) (tokens r)
      ++ opt_seg "minUSD" usize_to_string (min_usd r)
      ++ opt_seg "newTrades" bool_to_string (new_trades r)
      ++ opt_seg "startFrom" (fun t => t) (start_from r)
      ++ opt_seg "fromTimestamp" i64_to_string (from_timestamp r)), EmptyString.
    split; [|intro v];
      rewrite (construct_url_ok _ w) by exact Hw;
      unfold url_spec; cbn [set_to_timestamp to_timestamp opt_seg];
      rewrite ?append_nil_r_str, ?append_assoc_str; reflexivity.
Qed.

Lemma C5_scalar_fields_witness :
  wallet ex_req = Some "0xABC" /\
  ((exists pre suf, serialize (set_limit ex_req None) = Ok (pre ++ suf) /\
     forall v, serialize (set_limit ex_req (Some v)) = Ok (pre ++ "&limit=" ++ usize_to_string v ++ suf))
  /\ (exists pre suf, serialize (set_list ex_req None) = Ok (pre ++ suf) /\
     forall v, serialize (set_list ex_req (Some v)) = Ok (pre ++ "&list=" ++ usize_to_string v ++ suf))
  /\ (exists pre suf, serialize (set_min_usd ex_req None) = Ok (pre ++ suf) /\
     forall v, serialize (set_min_usd ex_req (Some v)) = Ok (pre ++ "&minUSD=" ++ usize_to_string v ++ suf))
  /\ (exists pre suf, serialize (set_start_from ex_req None) = Ok (pre ++ suf) /\
     forall v, serialize (set_start_from ex_req (Some v)) = Ok (pre ++ "&startFrom=" ++ v ++ suf))
  /\ (exists pre suf, serialize (set_from_timestamp ex_req None) = Ok (pre ++ suf) /\
     forall v, serialize (set_from_timestamp ex_req (Some v)) =
               Ok (pre ++ "&fromTimestamp=" ++ i64_to_string v ++ suf))
  /\ (exists pre suf, serialize (set_to_timestamp ex_req None) = Ok (pre ++ suf) /\
     forall v, serialize (set_to_timestamp ex_req (Some v)) =
               Ok (pre ++ "&toTimestamp=" ++ i64_to_string v ++ suf))).
Proof. split; [reflexivity | apply (C5_scalar_fields ex_req "0xABC"); reflexivity]. Defined.

Lemma all_TxTypes_complete (t : TxType) : In t all_TxTypes.
Proof. destruct t; simpl; tauto. Qed.

Lemma all_TxTypes_NoDup : NoDup all_TxTypes.
Proof.
  unfold all_TxTypes.
  repeat constructor; simpl; intuition discriminate.
Qed.

(** C7 (as stated, refuted): no duplicate-free list of exactly 19 elements
    enumerates [TxType]; the enumeration has 20 variants. *)
Lemma C7_not_19_variants :
  ~ (exists l : list TxType, NoDup l /\ (forall t, In t l) /\ List.length l = 19).
Proof.
  intros [l [_ [Hall Hlen]]].
  assert (H : List.length all_TxTypes <= List.length l).
  { apply NoDup_incl_length; [apply all_TxTypes_NoDup | intros t _; apply Hall]. }
  rewrite Hlen in H. simpl in H. lia.
Qed.

(** C7 (amended): [TxType] has exactly 20 variants, and [to_get_format]
    maps them one-to-one onto the 20 lowercase snake_case tokens bridge,
    contract_creation, ..., transfer, wrap. *)
Theorem C7_TxType_mapping :
  NoDup all_TxTypes /\ (forall t, In t all_TxTypes) /\ List.length all_TxTypes = 20
  /\ map TxType_to_get_format all_TxTypes = TxType_tokens
  /\ NoDup TxType_tokens
  /\ (forall t, In (TxType_to_get_format t) TxType_tokens)
  /\ (forall t1 t2, TxType_to_get_format t1 = TxType_to_get_format t2 -> t1 = t2).
Proof.
  split; [apply all_TxTypes_NoDup|]. split; [apply all_TxTypes_complete|].
  split; [reflexivity|]. split; [reflexivity|].
  assert (Hnd : NoDup TxType_tokens).
  { unfold TxType_tokens. repeat constructor; simpl; intuition discriminate. }
  split; [exact Hnd|]. split.
  - intro t. destruct t; simpl; tauto.
  - intros t1 t2 E. destruct t1, t2; try reflexivity; discriminate E.
Qed.

(** C8: a present but empty chains, types or tokens list serializes exactly
    as the absent field. *)
Theorem C8_empty_list_omitted (r : CieloRequest) :
  serialize (set_chains r (Some [])) = serialize (set_chains r None)
  /\ serialize (set_types r (Some [])) = serialize (set_types r None)
  /\ serialize (set_tokens r (Some [])) = serialize (set_tokens r None).
Proof.
  unfold serialize.
  destruct (wallet r) as [w|] eqn:Hw.
  - repeat rewrite (construct_url_ok _ w) by exact Hw.
    repeat split; reflexivity.
  - repeat rewrite construct_url_no_wallet by exact Hw.
    repeat split; reflexivity.
Qed.

(** C9: the serializer's result depends on the request alone: not on the
    buffer or the logger state it starts from; serializing twice gives the
    same string. *)
Theorem C9_deterministic (r : CieloRequest) :
  (forall s1 s2, fst (construct_url_from_req_object r s1) =
                 fst (construct_url_from_req_object r s2))
  /\ serialize r = serialize r.
Proof.
  split; [|reflexivity]. intros s1 s2.
  destruct (wallet r) as [w|] eqn:Hw.
  - now rewrite !(construct_url_ok _ w).
  - now rewrite !construct_url_no_wallet.
Qed.

(** C10: [submit_cielo_get_request] unwraps [chains] and [types] first:
    when either is absent it panics before any URL reaches the transport,
    whatever the other fields; it returns only when both are present. *)
Theorem C10_submit_unwraps (send : string -> list (string * string) -> result string string)
    (r : CieloRequest) :
  (chains r = None \/ types r = None ->
   submit_cielo_get_request send r = (Panicked unwrap_none_msg, []))
  /\ (forall o calls, submit_cielo_get_request send r = (Returned o, calls) ->
      exists cs ts, chains r = Some cs /\ types r = Some ts).
Proof.
  unfold submit_cielo_get_request. split.
  - intros [H|H]; rewrite H; [reflexivity|]. now destruct (chains r).
  - intros o calls. destruct (chains r) as [cs|]; [|discriminate].
    destruct (types r) as [ts|]; [|discriminate]. eauto.
Qed.

Lemma C10_submit_unwraps_witness :
  chains (set_chains ex_req None) = None /\
  submit_cielo_get_request (fun _ _ => Ok EmptyString) (set_chains ex_req None)
  = (Panicked unwrap_none_msg, []).
Proof.
  split; [reflexivity|].
  apply (proj1 (C10_submit_unwraps (fun _ _ => Ok EmptyString) (set_chains ex_req None))).
  left; reflexivity.
Defined.

(** ** Ampersands in the URL *)

Lemma no_amp_app (a b : string) :
  no_amp a = true -> no_amp b = true -> no_amp (a ++ b) = true.
Proof.
  induction a as [|c a IH]; simpl; [tauto|].
  intros H Hb. apply andb_prop in H as [H1 H2]. rewrite H1. simpl. auto.
Qed.

Lemma no_amp_amp_ok (s : string) : no_amp s = true -> amp_ok s = true.
Proof.
  induction s as [|c s IH]; simpl; [reflexivity|].
  intro H. apply andb_prop in H as [H1 H2].
  apply negb_true_iff in H1. rewrite H1. simpl. auto.
Qed.

Lemma amp_ok_app (a b : string) :
  amp_ok a = true -> amp_ok b = true -> amp_ok (a ++ b) = true.
Proof.
  induction a as [|c a IH]; simpl; [tauto|].
  intros H Hb. apply andb_prop in H as [H1 H2].
  rewrite (IH H2 Hb), andb_true_r.
  destruct (Ascii.eqb c "&"); [|reflexivity].
  destruct a as [|d a]; [discriminate | exact H1].
Qed.

Lemma amp_ok_no_amp_n (s p q : string) :
  amp_ok s = true -> s <> p ++ String "&" (String "n" q).
Proof.
  revert s. induction p as [|c p IH]; intros s H E; subst s; simpl in H.
  - discriminate H.
  - apply andb_prop in H as [_ H]. exact (IH _ H eq_refl).
Qed.

Lemma no_amp_uint (u : Decimal.uint) : no_amp (NilEmpty.string_of_uint u) = true.
Proof. induction u; simpl; auto. Qed.

Lemma no_amp_usize (n : usize) : no_amp (usize_to_string n) = true.
Proof.
  unfold usize_to_string, NilZero.string_of_uint.
  destruct (N.to_uint n); try reflexivity; apply no_amp_uint.
Qed.

Lemma no_amp_i64 (z : i64) : no_amp (i64_to_string z) = true.
Proof.
  unfold i64_to_string, NilZero.string_of_int, NilZero.string_of_uint.
  destruct (Z.to_int z) as [u|u]; destruct u; simpl; try reflexivity;
    apply no_amp_uint.
Qed.

Lemma no_amp_commas {X} (f : X -> string) (xs : list X) :
  forallb (fun x => no_amp (f x)) xs = true -> no_amp (commas f xs) = true.
Proof.
  induction xs as [|x xs IH]; simpl; [reflexivity|].
  intro H. apply andb_prop in H as [H1 H2]. simpl.
  now apply no_amp_app; [|apply IH].
Qed.

Lemma amp_ok_amp_cons (c : ascii) (s : string) :
  amp_ok (String "&" (String c s)) = negb (Ascii.eqb c "n") && amp_ok (String c s).
Proof. reflexivity. Qed.

Lemma amp_ok_list_seg {X} (p : string) (c : ascii) (f : X -> string) (o : option (list X)) :
  no_amp (String c p) = true -> Ascii.eqb c "n" = false ->
  match o with Some xs => forallb (fun x => no_amp (f x)) xs | None => true end = true ->
  amp_ok (list_seg (String c p) f o) = true.
Proof.
  intros Hp Hc Ho. destruct o as [[|x xs]|]; try reflexivity.
  simpl in Ho. apply andb_prop in Ho as [Hx Hxs].
  unfold list_seg. change (amp_ok (String "&" (String c (p ++ "=" ++ f x ++ commas f xs))) = true).
  rewrite amp_ok_amp_cons, Hc. cbn [negb andb].
  apply no_amp_amp_ok. change (no_amp (String c p ++ "=" ++ f x ++ commas f xs) = true).
  apply no_amp_app; [exact Hp|]. apply no_amp_app; [reflexivity|].
  apply no_amp_app; [exact Hx | now apply no_amp_commas].
Qed.

Lemma amp_ok_opt_seg {X} (p : string) (c : ascii) (f : X -> string) (o : option X) :
  no_amp (String c p) = true -> Ascii.eqb c "n" = false ->
  match o with Some v => no_amp (f v) | None => true end = true ->
  amp_ok (opt_seg (String c p) f o) = true.
Proof.
  intros Hp Hc Ho. destruct o as [v|]; [|reflexivity].
  unfold opt_seg. change (amp_ok (String "&" (String c (p ++ "=" ++ f v))) = true).
  rewrite amp_ok_amp_cons, Hc. cbn [negb andb].
  apply no_amp_amp_ok. change (no_amp (String c p ++ "=" ++ f v) = true).
  apply no_amp_app; [exact Hp|]. apply no_amp_app; [reflexivity | exact Ho].
Qed.

Lemma forallb_no_amp_TxType (ts : list TxType) :
  forallb (fun t => no_amp (TxType_to_get_format t)) ts = true.
Proof. induction ts as [|t ts IH]; [reflexivity|]. simpl. rewrite IH. now destruct t. Qed.

Lemma sep_start_app (a b : string) :
  sep_start a = true -> sep_start b = true -> sep_start (a ++ b) = true.
Proof. destruct a; simpl; auto. Qed.

Lemma sep_start_opt_seg {X} (p : string) (f : X -> string) (o : option X) :
  sep_start (opt_seg p f o) = true.
Proof. now destruct o. Qed.

Lemma sep_start_list_seg {X} (p : string) (f : X -> string) (o : option (list X)) :
  sep_start (list_seg p f o) = true.
Proof. now destruct o as [[|]|]. Qed.

Lemma sep_start_commas {X} (f : X -> string) (xs : list X) (b : string) :
  sep_start b = true -> sep_start (commas f xs ++ b) = true.
Proof. now destruct xs. Qed.

Lemma contains_cons (pat : string) (x : ascii) (a : string) :
  contains pat a -> contains pat (String x a).
Proof. intros [p [q E]]. exists (String x p), q. now rewrite E. Qed.

Lemma contains_trans (a b c : string) :
  contains a b -> contains b c -> contains a c.
Proof.
  intros [p1 [q1 E1]] [p2 [q2 E2]]. subst.
  exists (p2 ++ p1), (q1 ++ q2). now rewrite !append_assoc_str.
Qed.

Lemma contains_refl (a : string) : contains a a.
Proof. exists EmptyString, EmptyString. now rewrite append_nil_r_str. Qed.

Lemma contains_left (a b c : string) : contains a b -> contains a (b ++ c).
Proof.
  intro H. apply (contains_trans _ _ _ H). exists EmptyString, c. reflexivity.
Qed.

Lemma contains_right (a b c : string) : contains a c -> contains a (b ++ c).
Proof.
  intro H. apply (contains_trans _ _ _ H). exists b, EmptyString.
  now rewrite append_nil_r_str.
Qed.

(** An element of a list is a piece of its [commas] rendering. *)
Lemma contains_commas {X} (f : X -> string) (xs : list X) (x : X) :
  In x xs -> contains (f x) (commas f xs).
Proof.
  induction xs as [|y xs IH]; intros Hin; [destruct Hin|].
  destruct Hin as [<-|Hin]; cbn [commas].
  - apply contains_cons, contains_left, contains_refl.
  - apply contains_cons, contains_right, IH, Hin.
Qed.

Lemma contains_list_seg {X} (p : string) (f : X -> string) (xs : list X) (x : X) :
  In x xs -> contains (f x) (list_seg p f (Some xs)).
Proof.
  destruct xs as [|y ys]; intros Hin; [destruct Hin|].
  rewrite list_seg_cons. apply contains_cons. do 2 apply contains_right.
  destruct Hin as [<-|Hin].
  - apply contains_left, contains_refl.
  - apply contains_right, contains_commas, Hin.
Qed.

Lemma amp_ok_head (c : ascii) (p : string) :
  no_amp (String c p) = true -> Ascii.eqb c "n" = false ->
  amp_ok ("&" ++ String c p ++ "=") = true.
Proof.
  intros Hp Hc. change (amp_ok (String "&" (String c (p ++ "="))) = true).
  rewrite amp_ok_amp_cons, Hc. cbn [negb andb].
  apply no_amp_amp_ok. change (no_amp (String c p ++ "=") = true).
  now apply no_amp_app.
Qed.

(** *** Where [&n...] can occur in a concatenation *)

Section Occurrences.
Variable pt : string.
Hypothesis Hpt : no_sep (String "n" pt) = true.
Let P := String "&" (String "n" pt).

Lemma prefix_through (t a q b : string) :
  no_sep t = true -> sep_start b = true -> t ++ q = a ++ b ->
  exists q', a = t ++ q'.
Proof.
  revert a. induction t as [|y t IH]; intros a Ht Hb E; [now exists a|].
  cbn [no_sep] in Ht. apply andb_prop in Ht as [Hy Ht].
  destruct a as [|z a].
  - simpl in E. subst b. simpl in Hb. rewrite Hb in Hy. discriminate.
  - simpl in E. injection E as <- E.
    destruct (IH a Ht Hb E) as [q' ->]. now exists q'.
Qed.

(** An occurrence of [P] cannot start in a part where every [&] is
    followed by a character other than [n]. *)
Lemma occ_fixed (a b : string) :
  amp_ok a = true -> contains P (a ++ b) -> contains P b.
Proof.
  intros Ha [p [q E]]. revert p E. induction a as [|x a IH]; intros p E.
  - exists p, q. exact E.
  - cbn [amp_ok] in Ha. apply andb_prop in Ha as [Hx Ha].
    destruct p as [|y p].
    + simpl in E. injection E as -> E. cbn [Ascii.eqb] in Hx.
      destruct a as [|d a]; [discriminate Hx|].
      simpl in E. injection E as -> _. discriminate Hx.
    + simpl in E. injection E as _ E. exact (IH Ha p E).
Qed.

(** An occurrence of [P] cannot run past the end of a part followed by
    nothing, [&] or [,]. *)
Lemma occ_free (v b : string) :
  sep_start b = true -> contains P (v ++ b) -> contains P v \/ contains P b.
Proof.
  intros Hb [p [q E]]. revert p E. induction v as [|x v IH]; intros p E.
  - right. exists p, q. exact E.
  - destruct p as [|y p].
    + simpl in E. injection E as Ex E; subst x.
      destruct (prefix_through (String "n" pt) v q b Hpt Hb (eq_sym E)) as [q' ->].
      left. exists EmptyString, q'. reflexivity.
    + simpl in E. injection E as _ E.
      destruct (IH p E) as [H|H]; [left; now apply contains_cons | now right].
Qed.

Lemma occ_amp_ok (a : string) : amp_ok a = true -> ~ contains P a.
Proof. intros Ha [p [q E]]. exact (amp_ok_no_amp_n a p _ Ha E). Qed.

Lemma occ_opt_fixed {X} (c : ascii) (p : string) (f : X -> string) (o : option X) (b : string) :
  no_amp (String c p) = true -> Ascii.eqb c "n" = false ->
  (forall v, no_amp (f v) = true) ->
  contains P (opt_seg (String c p) f o ++ b) -> contains P b.
Proof.
  intros Hp Hc Hf. apply occ_fixed, amp_ok_opt_seg; try assumption.
  destruct o; [apply Hf | reflexivity].
Qed.

Lemma occ_opt_free (c : ascii) (p : string) (o : option string) (b : string) :
  no_amp (String c p) = true -> Ascii.eqb c "n" = false -> sep_start b = true ->
  contains P (opt_seg (String c p) (fun t => t) o ++ b) ->
  (exists v, o = Some v /\ contains P v) \/ contains P b.
Proof.
  intros Hp Hc Hb H. destruct o as [v|]; [|now right].
  unfold opt_seg in H. rewrite !append_assoc_str in H.
  replace ("&" ++ String c p ++ "=" ++ v ++ b)
    with (("&" ++ String c p ++ "=") ++ (v ++ b)) in H
    by now rewrite !append_assoc_str.
  apply occ_fixed in H; [|now apply amp_ok_head].
  destruct (occ_free v b Hb H) as [H'|H']; [left; eauto | now right].
Qed.

Lemma occ_commas {X} (f : X -> string) (xs : list X) (b : string) :
  sep_start b = true -> contains P (commas f xs ++ b) ->
  (exists x, In x xs /\ contains P (f x)) \/ contains P b.
Proof.
  intros Hb. induction xs as [|x xs IH]; intro H; [now right|].
  cbn [commas] in H. rewrite !append_assoc_str in H.
  change (contains P (String "," EmptyString ++ (f x ++ (commas f xs ++ b)))) in H.
  apply occ_fixed in H; [|reflexivity].
  destruct (occ_free _ _ (sep_start_commas f xs b Hb) H) as [H'|H'].
  - left. exists x. split; [now left | exact H'].
  - destruct (IH H') as [[y [Hy Hy']]|H'']; [left; exists y; split; [now right | exact Hy'] | now right].
Qed.

Lemma occ_list_free {X} (c : ascii) (p : string) (f : X -> string) (o : option (list X)) (b : string) :
  no_amp (String c p) = true -> Ascii.eqb c "n" = false -> sep_start b = true ->
  contains P (list_seg (String c p) f o ++ b) ->
  (exists xs x, o = Some xs /\ In x xs /\ contains P (f x)) \/ contains P b.
Proof.
  intros Hp Hc Hb H. destruct o as [[|x xs]|]; try now right.
  rewrite list_seg_cons in H.
  replace (("&" ++ String c p ++ "=" ++ f x ++ commas f xs) ++ b)
    with (("&" ++ String c p ++ "=") ++ (f x ++ (commas f xs ++ b))) in H
    by now rewrite !append_assoc_str.
  apply occ_fixed in H; [|now apply amp_ok_head].
  destruct (occ_free _ _ (sep_start_commas f xs b Hb) H) as [H'|H'].
  - left. exists (x :: xs), x. split; [reflexivity|]. split; [now left | exact H'].
  - destruct (occ_commas f xs b Hb H') as [[y [Hy Hy']]|H''];
      [left; exists (x :: xs), y; split; [reflexivity|]; split; [now right | exact Hy'] | now right].
Qed.

Lemma occ_list_fixed {X} (c : ascii) (p : string) (f : X -> string) (o : option (list X)) (b : string) :
  no_amp (String c p) = true -> Ascii.eqb c "n" = false ->
  match o with Some xs => forallb (fun x => no_amp (f x)) xs | None => true end = true ->
  contains P (list_seg (String c p) f o ++ b) -> contains P b.
Proof. intros Hp Hc Ho. now apply occ_fixed, amp_ok_list_seg. Qed.

Ltac sep_tac :=
  repeat (apply sep_start_app; [apply sep_start_opt_seg || apply sep_start_list_seg |]);
  first [apply sep_start_opt_seg | apply sep_start_list_seg].

(** Without a [newTrades] field, [P] occurs in the URL only inside one of
    the free-form strings. *)
Lemma url_spec_occ (r : CieloRequest) (w : string) :
  wallet r = Some w -> new_trades r = None ->
  contains P (url_spec w r) -> free_contains P r.
Proof.
  intros Hw Hnt H. unfold url_spec in H. rewrite Hnt in H.
  apply occ_fixed in H; [|reflexivity].
  apply occ_fixed in H; [|reflexivity].
  apply occ_free in H as [H|H]; [left; eauto | | sep_tac].
  apply occ_opt_fixed in H; try reflexivity; [|apply no_amp_usize].
  apply occ_opt_fixed in H; try reflexivity; [|apply no_amp_usize].
  apply occ_list_free in H as [[cs [c [Hcs [Hin Hc]]]]|H]; try reflexivity; [right; left; eauto | | sep_tac].
  apply occ_list_fixed in H; try reflexivity;
    [|destruct (types r); [apply forallb_no_amp_TxType | reflexivity]].
  apply occ_list_free in H as [[ts [t [Hts [Hin Ht]]]]|H]; try reflexivity; [right; right; left; eauto | | sep_tac].
  apply occ_opt_fixed in H; try reflexivity; [|apply no_amp_usize].
  apply occ_fixed in H; [|reflexivity].
  apply occ_opt_free in H as [[sf [Hsf Hc]]|H]; try reflexivity; [right; right; right; eauto | | sep_tac].
  apply occ_opt_fixed in H; try reflexivity; [|apply no_amp_i64].
  exfalso. revert H. apply occ_amp_ok, amp_ok_opt_seg; try reflexivity.
  destruct (to_timestamp r); [apply no_amp_i64 | reflexivity].
Qed.

End Occurrences.

(** Every free-form string of a request is a piece of its URL. *)
Lemma url_spec_free (pat : string) (r : CieloRequest) (w : string) :
  wallet r = Some w -> free_contains pat r -> contains pat (url_spec w r).
Proof.
  intros Hw [[w' [Hw' H]]|[[cs [c [Hcs [Hin H]]]]|[[ts [t [Hts [Hin H]]]]|[sf [Hsf H]]]]];
    unfold url_spec.
  - rewrite Hw in Hw'. injection Hw' as <-.
    do 2 apply contains_right. now apply contains_left.
  - do 5 apply contains_right. apply contains_left. rewrite Hcs.
    exact (contains_trans _ _ _ H (contains_list_seg _ _ _ _ Hin)).
  - do 7 apply contains_right. apply contains_left. rewrite Hts.
    exact (contains_trans _ _ _ H (contains_list_seg _ (fun x => x) _ _ Hin)).
  - do 10 apply contains_right. apply contains_left. rewrite Hsf.
    apply (contains_trans _ _ _ H). exists "&startFrom=", EmptyString.
    now rewrite append_nil_r_str.
Qed.

Lemma serialize_wallet (r : CieloRequest) (u : string) :
  serialize r = Ok u -> exists w, wallet r = Some w /\ u = url_spec w r.
Proof.
  unfold serialize. destruct (wallet r) as [w|] eqn:Hw.
  - rewrite (construct_url_ok _ w) by exact Hw. intro E. injection E as <-. eauto.
  - rewrite construct_url_no_wallet by exact Hw. discriminate.
Qed.

Lemma url_spec_new_trades (r : CieloRequest) (w : string) (b : bool) :
  new_trades r = Some b -> contains ("&newTrades=" ++ bool_to_string b) (url_spec w r).
Proof.
  intro Hb. unfold url_spec, contains. rewrite Hb.
  exists (BASE_URL ++ "wallet=" ++ w
    ++ opt_seg "limit" usize_to_string (limit r)
    ++ opt_seg "list" usize_to_string (list_ r)
    ++ list_seg "chains" Chain_to_get_format (chains r)
    ++ list_seg "txTypes" TxType_to_get_format (types r)
    ++ list_seg "tokens" (fun t => t) (tokens r)
    ++ opt_seg "minUSD" usize_to_string (min_usd r)), (
    opt_seg "startFrom" (fun t => t) (start_from r)
    ++ opt_seg "fromTimestamp" i64_to_string (from_timestamp r)
    ++ opt_seg "toTimestamp" i64_to_string (to_timestamp r)).
  rewrite !append_assoc_str. reflexivity.
Qed.

(** C6 (as stated, refuted): with [new_trades] absent, a wallet string that
    itself holds [&newTrades=true] puts that text into the URL, which is
    emitted without escaping. *)
Lemma C6_injected_wallet :
  new_trades ex_injected_req = None /\
  exists u, serialize ex_injected_req = Ok u /\ contains "&newTrades=true" u.
Proof.
  split; [reflexivity|]. eexists. split; [reflexivity|].
  exists (BASE_URL ++ "wallet=0x"),
    "&limit=10&chains=ethereum&txTypes=swap&minUSD=100".
  reflexivity.
Qed.

(** C6 (amended): [Some true] adds exactly the segment [&newTrades=true],
    [Some false] exactly [&newTrades=false], and [None] no segment: the
    three URLs differ by that segment alone.  With [None], the URL contains
    [&newTrades=true] (or [&newTrades=false]) exactly when one of the
    free-form strings (wallet, an EvmChain slug, a token, start_from)
    contains it, since they are inserted without escaping. *)
Theorem C6_new_trades (r : CieloRequest) (w : string) :
  wallet r = Some w ->
  (exists pre suf, serialize (set_new_trades r None) = Ok (pre ++ suf)
     /\ serialize (set_new_trades r (Some true)) = Ok (pre ++ "&newTrades=true" ++ suf)
     /\ serialize (set_new_trades r (Some false)) = Ok (pre ++ "&newTrades=false" ++ suf))
  /\ (forall u, serialize r = Ok u ->
       (new_trades r = Some true -> contains "&newTrades=true" u)
       /\ (new_trades r = Some false -> contains "&newTrades=false" u)
       /\ (new_trades r = None ->
           (contains "&newTrades=true" u <-> free_contains "&newTrades=true" r)
           /\ (contains "&newTrades=false" u <-> free_contains "&newTrades=false" r))).
Proof.
  intro Hw. split.
  - eexists (BASE_URL ++ "wallet=" ++ w ++ opt_seg "limit" usize_to_string (limit r)
      ++ opt_seg "list" usize_to_string (list_ r)
      ++ list_seg "chains" Chain_to_get_format (chains r)
      ++ list_seg "txTypes" TxType_to_get_format (types r)
      ++ list_seg "tokens" (fun t => t) (tokens r)
      ++ opt_seg "minUSD" usize_to_string (min_usd r)), _.
    unfold serialize.
    split; [|split]; rewrite (construct_url_ok _ w) by exact Hw;
      unfold url_spec; rewrite !append_assoc_str; reflexivity.
  - intros u Hs. unfold serialize in Hs.
    rewrite (construct_url_ok _ w) in Hs by exact Hw. injection Hs as <-.
    split; [|split].
    + intro H. exact (url_spec_new_trades r w true H).
    + intro H. exact (url_spec_new_trades r w false H).
    + intro Hnt. split; split.
      * exact (url_spec_occ "ewTrades=true" eq_refl r w Hw Hnt).
      * now apply url_spec_free.
      * exact (url_spec_occ "ewTrades=false" eq_refl r w Hw Hnt).
      * now apply url_spec_free.
Qed.

Lemma C6_new_trades_witness :
  wallet ex_injected_req = Some "0x&newTrades=true" /\
  (exists pre suf, serialize (set_new_trades ex_injected_req None) = Ok (pre ++ suf)
     /\ serialize (set_new_trades ex_injected_req (Some true)) = Ok (pre ++ "&newTrades=true" ++ suf)
     /\ serialize (set_new_trades ex_injected_req (Some false)) = Ok (pre ++ "&newTrades=false" ++ suf))
  /\ (forall u, serialize ex_injected_req = Ok u ->
       (new_trades ex_injected_req = Some true -> contains "&newTrades=true" u)
       /\ (new_trades ex_injected_req = Some false -> contains "&newTrades=false" u)
       /\ (new_trades ex_injected_req = None ->
           (contains "&newTrades=true" u <-> free_contains "&newTrades=true" ex_injected_req)
           /\ (contains "&newTrades=false" u <-> free_contains "&newTrades=false" ex_injected_req))).
Proof.
  split; [reflexivity|].
  apply (C6_new_trades ex_injected_req "0x&newTrades=true"). reflexivity.
Defined.

(** ** Further properties of the code *)

Lemma submit_join_loop_all_sep {X} (sep : string) (fmt : X -> string) (xs : list X) :
  forall len i acc, i + List.length xs <= len ->
  submit_join_loop sep fmt len i acc xs
  = acc ++ fold_right String.append EmptyString (map (fun x => fmt x ++ sep) xs).
Proof.
  induction xs as [|x xs IH]; intros len i acc Hle; simpl.
  - now rewrite append_nil_r_str.
  - simpl in Hle. replace (Nat.eqb i len) with false by (symmetry; apply Nat.eqb_neq; lia).
    simpl. rewrite IH by lia. now rewrite !append_assoc_str.
Qed.

(** X1: the loops building [chains_string] and [tx_type_string] never take
    their [else] branch ([index] stays below the length): every element is
    followed by the separator, the last one included. *)
Theorem submit_join_loop_trailing_sep {X} (sep : string) (fmt : X -> string) (xs : list X) :
  submit_join_loop sep fmt (List.length xs) 0 EmptyString xs
  = fold_right String.append EmptyString (map (fun x => fmt x ++ sep) xs).
Proof. rewrite submit_join_loop_all_sep by lia. reflexivity. Qed.

Lemma submit_sends_url (send : string -> list (string * string) -> result string string)
    (r : CieloRequest) (cs : list Chain) (ts : list TxType) (w : string) :
  chains r = Some cs -> types r = Some ts -> wallet r = Some w ->
  submit_cielo_get_request send r
  = (Returned (send (url_spec w r) cielo_headers), [url_spec w r]).
Proof.
  intros Hc Ht Hw. unfold submit_cielo_get_request. rewrite Hc, Ht.
  unfold serialize. now rewrite (construct_url_ok _ w).
Qed.

(** X2: once [chains] and [types] are present, [submit_cielo_get_request]
    either sends exactly one GET, to the serializer's URL, with the headers
    [Accept: application/json] and [X-API-KEY], and returns the transport's
    answer unchanged; or, without a wallet, panics with the [expect]
    message followed by the serializer's error in its Debug form (between
    double quotes), sending nothing. *)
Theorem submit_one_request (send : string -> list (string * string) -> result string string)
    (r : CieloRequest) (cs : list Chain) (ts : list TxType) :
  chains r = Some cs -> types r = Some ts ->
  (forall w, wallet r = Some w ->
     submit_cielo_get_request send r
     = (Returned (send (url_spec w r) cielo_headers), [url_spec w r]))
  /\ (wallet r = None ->
     submit_cielo_get_request send r
     = (Panicked ("Error constructing GET request query values (URL): "
                  ++ String dquote ("Wallet address is required" ++ String dquote EmptyString)),
        [])).
Proof.
  intros Hc Ht. split.
  - intros w Hw. now apply (submit_sends_url send r cs ts w).
  - intro Hw. unfold submit_cielo_get_request. rewrite Hc, Ht.
    unfold serialize. rewrite construct_url_no_wallet by exact Hw. vm_compute. reflexivity.
Qed.

Lemma submit_one_request_witness :
  chains ex_req = Some [Ethereum] /\ types ex_req = Some [Swap] /\
  submit_cielo_get_request (fun _ _ => Ok EmptyString) ex_req
  = (Returned (Ok EmptyString),
     [url_spec "0xABC" ex_req]).
Proof.
  split; [reflexivity|]. split; [reflexivity|].
  apply (proj1 (submit_one_request (fun _ _ => Ok EmptyString) ex_req [Ethereum] [Swap]
                  eq_refl eq_refl)).
  reflexivity.
Defined.



(** X4: each test of lib.rs sends one GET, to the URL of its request, and
    passes exactly when the transport answers [Ok]. *)
Theorem tests_behaviour (send : string -> list (string * string) -> result string string) :
  let url_eth := "https://feed-api.cielo.finance/api/v1/feed?wallet=0x0f9d76acdbc4417b026f876be1e2042e45f3bcd2&limit=10&chains=ethereum&txTypes=swap&minUSD=100" in
  let url_sol := "https://feed-api.cielo.finance/api/v1/feed?wallet=GTdu7yv9DefWrEoWZnRc744qMEo5DFgrrdar7QdivEwf&limit=10&chains=solana&txTypes=swap,transfer&minUSD=100" in
  snd (submit_cielo_get_request send test_eth_request) = [url_eth]
  /\ test_passes send test_eth_request = result_is_ok (send url_eth cielo_headers)
  /\ snd (submit_cielo_get_request send test_sol_request) = [url_sol]
  /\ test_passes send test_sol_request = result_is_ok (send url_sol cielo_headers).
Proof.
  intros url_eth url_sol. unfold test_passes.
  rewrite (submit_sends_url send test_eth_request _ _
             "0x0f9d76acdbc4417b026f876be1e2042e45f3bcd2" eq_refl eq_refl eq_refl).
  rewrite (submit_sends_url send test_sol_request _ _
             "GTdu7yv9DefWrEoWZnRc744qMEo5DFgrrdar7QdivEwf" eq_refl eq_refl eq_refl).
  replace (url_spec "0x0f9d76acdbc4417b026f876be1e2042e45f3bcd2" test_eth_request) with url_eth
    by (vm_compute; reflexivity).
  replace (url_spec "GTdu7yv9DefWrEoWZnRc744qMEo5DFgrrdar7QdivEwf" test_sol_request) with url_sol
    by (vm_compute; reflexivity).
  simpl. split; [reflexivity|]. split; [now destruct (send url_eth cielo_headers)|].
  split; [reflexivity | now destruct (send url_sol cielo_headers)].
Qed.

Lemma commas_id_split (l1 l2 : list string) (a b : string) :
  commas (fun t => t) (l1 ++ (a ++ "," ++ b)%string :: l2)%list
  = commas (fun t => t) (l1 ++ a :: b :: l2)%list.
Proof.
  induction l1 as [|x l1 IH]; cbn [app commas].
  - now rewrite !append_assoc_str.
  - now rewrite IH.
Qed.

(** X5: token strings are written without escaping, so a token holding a
    comma serializes exactly as the two tokens around that comma. *)
Theorem tokens_comma_ambiguous (r : CieloRequest) (l1 l2 : list string) (a b : string) :
  serialize (set_tokens r (Some (l1 ++ [(a ++ "," ++ b)%string] ++ l2)%list))
  = serialize (set_tokens r (Some (l1 ++ a :: b :: l2)%list)).
Proof.
  unfold serialize. destruct (wallet r) as [w|] eqn:Hw.
  - rewrite !(construct_url_ok _ w) by exact Hw. f_equal.
    unfold url_spec. cbn [tokens set_tokens].
    replace (list_seg "tokens" (fun t => t) (Some (l1 ++ [(a ++ "," ++ b)%string] ++ l2)%list))
      with (list_seg "tokens" (fun t => t) (Some (l1 ++ a :: b :: l2)%list)); [reflexivity|].
    destruct l1 as [|x l1]; unfold list_seg; cbn [app].
    + cbn [commas]. now rewrite !append_assoc_str.
    + now rewrite commas_id_split.
  - now rewrite !construct_url_no_wallet by exact Hw.
Qed.

Lemma commas_map {X} (f : X -> string) (xs : list X) :
  commas f xs = commas (fun t => t) (map f xs).
Proof. induction xs as [|x xs IH]; simpl; [reflexivity | now rewrite IH]. Qed.

Lemma list_seg_map {X} (p : string) (f : X -> string) (xs : list X) :
  list_seg p f (Some xs) = list_seg p (fun t => t) (Some (map f xs)).
Proof. destruct xs as [|x xs]; [reflexivity|]. unfold list_seg. simpl. now rewrite commas_map. Qed.

(** X6: the URL depends on the chains only through their string forms:
    chain lists with the same [to_get_format] strings serialize alike (so
    [EvmChain "solana"] stands for [Solana]). *)
Theorem chains_by_strings (r : CieloRequest) (cs1 cs2 : list Chain) :
  map Chain_to_get_format cs1 = map Chain_to_get_format cs2 ->
  serialize (set_chains r (Some cs1)) = serialize (set_chains r (Some cs2)).
Proof.
  intro E. unfold serialize. destruct (wallet r) as [w|] eqn:Hw.
  - rewrite !(construct_url_ok _ w) by exact Hw. f_equal.
    unfold url_spec. cbn [chains set_chains].
    now rewrite (list_seg_map _ _ cs1), (list_seg_map _ _ cs2), E.
  - now rewrite !construct_url_no_wallet by exact Hw.
Qed.

Lemma chains_by_strings_witness :
  map Chain_to_get_format [Solana] = map Chain_to_get_format [EvmChain "solana"] /\
  serialize (set_chains ex_req (Some [Solana]))
  = serialize (set_chains ex_req (Some [EvmChain "solana"])).
Proof. split; [reflexivity | apply chains_by_strings; reflexivity]. Defined.

(** ** The logger records of the serializer *)

Lemma seq_run {B} (m : M unit) (k : M B) (s : St) : (m ;;; k) s = k (snd (m s)).
Proof. unfold bind. destruct (m s) as [[] s']. reflexivity. Qed.


Lemma log_seq {B} (m : M unit) (k : M B) n1 n2 :
  log_step m n1 -> log_step k n2 -> log_step (m ;;; k) (n1 + n2).
Proof.
  intros H1 H2 s. rewrite seq_run.
  destruct (H1 s) as [L1 [E1 N1]]. destruct (H2 (snd (m s))) as [L2 [E2 N2]].
  exists (L1 ++ L2)%list. rewrite E2, E1, app_assoc, length_app. split; [reflexivity | lia].
Qed.

Lemma log_conv {A} (m : M A) n n' : log_step m n -> n = n' -> log_step m n'.
Proof. now intros H <-. Qed.

Lemma log_ret {A} (a : A) : log_step (ret a) 0.
Proof. intro s. exists []. now rewrite app_nil_r. Qed.

Lemma log_push (x : string) : log_step (push_str x) 0.
Proof. intro s. exists []. now rewrite app_nil_r. Qed.

Lemma log_info (l : string) : log_step (info l) 1.
Proof. intro s. eexists. split; reflexivity. Qed.

Lemma log_loop {X} (p : string) (f : X -> string) (xs : list X) :
  forall i, log_step (push_list_loop p f i xs) 0.
Proof.
  induction xs as [|x xs IH]; intro i; [apply log_ret|].
  cbn [push_list_loop]. apply (log_seq _ _ 0 0); [|apply IH].
  destruct (Nat.eqb i 0); apply log_push.
Qed.

Lemma log_then_info (m : M unit) (l : string) :
  log_step m 0 -> log_step (m ;;; info l) 1.
Proof. intro H. apply (log_seq _ _ 0 1 H (log_info l)). Qed.


Lemma info_last (m : M unit) (l : string) (s : St) :
  last_record_url (snd ((m ;;; info l) s)).
Proof. rewrite seq_run. eexists _, l. reflexivity. Qed.


Lemma keeps_ret : keeps_last (ret tt).
Proof. intros s H. exact H. Qed.

Lemma keeps_info_block (m : M unit) (l : string) : keeps_last (m ;;; info l).
Proof. intros s _. apply info_last. Qed.


Lemma ends_seq (m : M unit) (k : M (result string string)) :
  keeps_last m -> ends_logged k -> ends_logged (m ;;; k).
Proof. intros H1 H2 s Hs. rewrite seq_run. apply H2, H1, Hs. Qed.

Lemma ends_get : ends_logged (u <- get_url ;; ret (Ok u)).
Proof. intros s [pre [label E]]. simpl. eauto. Qed.

Lemma info_records (l : string) (s : St) : last_record_url (snd (info l s)).
Proof. eexists _, l. reflexivity. Qed.

Lemma log_new_url : log_step new_url 0.
Proof. intro s. exists []. now rewrite app_nil_r. Qed.

Lemma log_get_ret : log_step (u <- get_url ;; ret (@Ok string string u)) 0.
Proof. intro s. exists []. now rewrite app_nil_r. Qed.

Lemma ends_logged_apply (k : M (result string string)) (s : St) (u : string) :
  ends_logged k -> last_record_url s -> fst (k s) = Ok u ->
  exists pre label, logs (snd (k s)) = (pre ++ [log_record label u])%list.
Proof. intros Hk Hs E. specialize (Hk s Hs). now rewrite E in Hk. Qed.

Ltac keeps_block :=
  match goal with
  | |- keeps_last (match ?o with _ => _ end) => destruct o
  end; [apply keeps_info_block | apply keeps_ret].

Ltac log_block o :=
  eapply (log_seq _ _ (opt_count o));
  [destruct o; [apply log_then_info; first [apply log_push | apply log_loop
                                           | destruct (_ : bool); apply log_push]
               | apply log_ret] |].

(** X7: the serializer's [info!] calls.  Without a wallet it logs nothing;
    with one it adds exactly one record for the wallet and one per present
    optional field (an empty list counts), keeps the earlier records, and its
    last record shows the complete URL it returns. *)
Theorem serializer_log_records (r : CieloRequest) (s : St) :
  (wallet r = None -> logs (snd (construct_url_from_req_object r s)) = logs s)
  /\ (forall w, wallet r = Some w ->
      (exists L, logs (snd (construct_url_from_req_object r s)) = (logs s ++ L)%list
                 /\ List.length L = 1 + present_fields r)
      /\ (exists pre label, logs (snd (construct_url_from_req_object r s))
                            = (pre ++ [log_record label (url_spec w r)])%list)).
Proof.
  split.
  - intro Hw. unfold construct_url_from_req_object. rewrite Hw. reflexivity.
  - intros w Hw. split.
    + revert s. unfold construct_url_from_req_object. rewrite Hw. cbv beta iota.
      eapply log_conv.
      * apply (log_seq _ _ 0); [apply log_new_url|].
        apply (log_seq _ _ 0); [apply log_push|].
        apply (log_seq _ _ 0); [apply log_push|].
        apply (log_seq _ _ 1); [apply log_info|].
        log_block (limit r). log_block (list_ r). log_block (chains r).
        log_block (types r). log_block (tokens r). log_block (min_usd r).
        log_block (new_trades r). log_block (start_from r).
        log_block (from_timestamp r). log_block (to_timestamp r).
        apply log_get_ret.
      * unfold present_fields. lia.
    + pose proof (construct_url_ok r w s Hw) as Hok.
      unfold construct_url_from_req_object in *. rewrite Hw in *. cbv beta iota in *.
      do 4 rewrite seq_run in *.
      eapply ends_logged_apply; [| apply info_records | exact Hok].
      repeat (apply ends_seq; [keeps_block|]).
      apply ends_get.
Qed.

Lemma serializer_log_records_witness :
  wallet ex_req = Some "0xABC" /\
  (exists L, logs (snd (construct_url_from_req_object ex_req init_st)) = (logs init_st ++ L)%list
             /\ List.length L = 1 + present_fields ex_req)
  /\ (exists pre label, logs (snd (construct_url_from_req_object ex_req init_st))
                        = (pre ++ [log_record label (url_spec "0xABC" ex_req)])%list).
Proof.
  split; [reflexivity|].
  apply (proj2 (serializer_log_records ex_req init_st) "0xABC"). reflexivity.
Defined.
